(** * tap-sendgrid: the extraction engine

    A shallow embedding of [tap_sendgrid/http.py] and of the cursor and
    incremental strategies of [tap_sendgrid/syncs.py], with the properties
    of the specification stated over it.

    Conventions.
    - Decoded JSON bodies are values of [json]; the Python operations the
      code applies to them ([.get], [[0]], [len], [==], truthiness) are
      functions that raise the Python exception where Python does.
    - Effectful code lives in the monad [M]: a state-and-exception monad
      over a [world] that holds the replies the network is going to give,
      the chronological [trace] of observable events, and the bookmark
      store.
    - [while True] loops take a [fuel]; the outcome [Fuel] means that the
      loop was still running when the fuel ran out. *)

From Stdlib Require Import ZArith QArith Ascii String List Lia SpecFloat.
From stdpp Require Import base option list gmap strings.

Local Open Scope string_scope.
Local Open Scope list_scope.
Local Open Scope Z_scope.

(** ** Python values *)

(** Exceptions the modelled code can meet. *)
Inductive exn :=
| AttributeError
| IndexError
| KeyError
| TypeError
| JSONDecodeError
| ConnectionError
| ValueError (msg : string).

(** The result of running Python code: a value, a raised exception, or a
    loop that outlived its fuel. *)
Inductive outcome (A : Type) :=
| Ret (a : A)
| Raise (e : exn)
| Fuel.
Arguments Ret {A} a.
Arguments Raise {A} e.
Arguments Fuel {A}.

Definition obind {A B} (o : outcome A) (k : A -> outcome B) : outcome B :=
  match o with
  | Ret a => k a
  | Raise e => Raise e
  | Fuel => Fuel
  end.

(** IEEE 754 binary64, as Python's [float]. *)
Definition prec64 : Z := 53.
Definition emax64 : Z := 1024.

(** A decoded JSON document, as [simplejson] builds it: [None], [bool],
    [int], [float], [str], [list] and [dict] (keys in document order, each
    key once). *)
#[local] Unset Elimination Schemes.
Inductive json :=
| JNull
| JBool (b : bool)
| JInt (z : Z)
| JFloat (f : spec_float)
| JStr (s : string)
| JList (l : list json)
| JDict (d : list (string * json)).
#[local] Set Elimination Schemes.

Fixpoint assoc {A} (k : string) (d : list (string * A)) : option A :=
  match d with
  | [] => None
  | (k', v) :: d' => if String.eqb k k' then Some v else assoc k d'
  end.

(** [v.get(key, default)]: only a [dict] has the method. *)
Definition py_get (v : json) (key : string) (default : json) : outcome json :=
  match v with
  | JDict d => Ret (match assoc key d with Some x => x | None => default end)
  | _ => Raise AttributeError
  end.

Definition string_head (s : string) : option string :=
  match s with
  | EmptyString => None
  | String c _ => Some (String c EmptyString)
  end.

(** [v[0]]. A decoded JSON [dict] has string keys only, so [d[0]] is a
    [KeyError]; numbers, booleans and [None] are not subscriptable. *)
Definition py_getitem0 (v : json) : outcome json :=
  match v with
  | JList [] => Raise IndexError
  | JList (x :: _) => Ret x
  | JStr s => match string_head s with
              | Some c => Ret (JStr c)
              | None => Raise IndexError
              end
  | JDict _ => Raise KeyError
  | _ => Raise TypeError
  end.

(** [v == s] for a string literal [s]. *)
Definition py_eq_str (v : json) (s : string) : bool :=
  match v with
  | JStr s' => String.eqb s' s
  | _ => false
  end.

(** [v == 0]: Python compares numbers across [int], [float] and [bool]. *)
Definition py_eq_zero (v : json) : bool :=
  match v with
  | JInt z => Z.eqb z 0
  | JFloat (S754_zero _) => true
  | JBool b => negb b
  | _ => false
  end.

(** [len(v)]. *)
Definition py_len (v : json) : outcome nat :=
  match v with
  | JList l => Ret (length l)
  | JDict d => Ret (length d)
  | JStr s => Ret (String.length s)
  | _ => Raise TypeError
  end.

(** Truth value of [v], as in [if v:]. *)
Definition py_truthy (v : json) : bool :=
  match v with
  | JNull => false
  | JBool b => b
  | JInt z => negb (Z.eqb z 0)
  | JFloat (S754_zero _) => false
  | JFloat _ => true
  | JStr s => negb (String.eqb s "")
  | JList l => match l with [] => false | _ => true end
  | JDict d => match d with [] => false | _ => true end
  end.

(** ** HTTP responses *)

(** What the code reads of a [requests.Response]: [status_code], [content]
    and [json()], the latter [None] when decoding raises [JSONDecodeError]. *)
Record response := {
  status_code : Z;
  content : string;
  body : option json
}.

Definition resp_json (r : response) : outcome json :=
  match body r with
  | Some j => Ret j
  | None => Raise JSONDecodeError
  end.

(** ** http.py: end_of_records_check *)

Definition empty_message : string := "No more pages".

(** The first condition of [end_of_records_check]; [and] does not decode
    the body unless the status is 404. *)
Definition no_more_pages (r : response) : outcome bool :=
  if status_code r =? 404 then
    obind (resp_json r) (fun j =>
    obind (py_get j "errors" (JList [JDict []])) (fun errs =>
    obind (py_getitem0 errs) (fun e0 =>
    obind (py_get e0 "message" JNull) (fun m =>
    Ret (py_eq_str m empty_message)))))
  else Ret false.

Definition end_of_records_check (r : response) : outcome bool :=
  obind (no_more_pages r) (fun c =>
  if c then Ret true
  else
    obind (resp_json r) (fun j =>
    obind (py_get j "recipient_count" JNull) (fun rc =>
    if py_eq_zero rc then Ret true else Ret false))).

(** The message of the first entry of the body's error list, when the
    body is a mapping whose ['errors'] entry has a first element that is
    itself a mapping. *)
Definition first_error_message (j : json) : outcome json :=
  obind (py_get j "errors" (JList [JDict []])) (fun errs =>
  obind (py_getitem0 errs) (fun e0 =>
  py_get e0 "message" JNull)).

(** ** Python numbers *)

(** [delay] in [retry_get] starts as the [int] 120 and becomes a [float]
    at the first [delay *= backoff]. *)
Inductive pynum :=
| PyInt (z : Z)
| PyFloat (f : spec_float).

(** [float(z)], rounded to nearest even. *)
Definition float_of_Z (z : Z) : spec_float :=
  binary_normalize prec64 emax64 z 0 false.

(** The float literal [m * 2^e]. *)
Definition float_lit (m e : Z) : spec_float :=
  binary_normalize prec64 emax64 m e false.

(** [a * b]: an [int] operand is converted when the other is a [float]. *)
Definition py_mul (a b : pynum) : pynum :=
  match a, b with
  | PyInt x, PyInt y => PyInt (x * y)
  | PyInt x, PyFloat g => PyFloat (SFmul prec64 emax64 (float_of_Z x) g)
  | PyFloat f, PyInt y => PyFloat (SFmul prec64 emax64 f (float_of_Z y))
  | PyFloat f, PyFloat g => PyFloat (SFmul prec64 emax64 f g)
  end.



(** ** Observable events and the world *)

(** Query parameters and header sets are Python dicts whose insertion
    order shows in the request, hence association lists. *)
Definition params := list (string * Z).

Fixpoint dict_set {A} (k : string) (v : A) (d : list (string * A))
  : list (string * A) :=
  match d with
  | [] => [(k, v)]
  | (k', v') :: d' =>
      if String.eqb k k' then (k', v) :: d' else (k', v') :: dict_set k v d'
  end.

(** [d.update(other)]. *)
Definition dict_update {A} (d other : list (string * A)) : list (string * A) :=
  fold_left (fun acc kv => dict_set (fst kv) (snd kv) acc) other d.

(** The object bound to [headers] in [authed_get]: the source builds a
    [dict]; [extend] is a method of [list] only. *)
Inductive container :=
| PyDict (d : list (string * string))
| PyList (l : list string).

(** [c.extend(other)], iterating a dict argument over its keys. *)
Definition py_extend (c : container) (other : list (string * string))
  : outcome container :=
  match c with
  | PyList l => Ret (PyList (l ++ map fst other))
  | PyDict _ => Raise AttributeError
  end.

(** [c.update(other)]. *)
Definition py_update (c : container) (other : list (string * string))
  : outcome container :=
  match c with
  | PyDict d => Ret (PyDict (dict_update d other))
  | PyList _ => Raise AttributeError
  end.

(** One constructor per log statement of the two modules. *)
Inductive logmsg :=
| MsgBackoff (status : Z) (attempt retries : nat) (delay : pynum)
| MsgLatestStatus (status : Z)
| MsgLatestContent (content : string)
| MsgLooking (search_term : string) (day : Z)
| MsgResponse (res : json)
| MsgStarting (tap_stream_id : string) (start end_ : Z)
| MsgStartingExtract (tap_stream_id : string)
| MsgStatusError (status : Z)
| MsgInvalidContent (content : string).

Inductive event :=
| EvRequest (url : string) (query : option params) (headers : container)
| EvTimer (tap_stream_id : string) (status : option Z)
| EvSleep (delay : pynum)
| EvInfo (m : logmsg)
| EvError (m : logmsg)
| EvWrite (tap_stream_id : string) (records : json)
| EvSetBookmark (path : string * string) (value : Z).

(** What the network does with one request: an HTTP response, or an
    exception of the HTTP library. *)
Inductive reply :=
| Answer (r : response)
| Failure (e : exn).

(** [net i] is the reply to the [i]-th request of the run, [calls] the
    number of requests sent so far, [trace] the events so far, oldest
    first, and [bookmarks] the state store's bookmark values (epoch
    seconds). *)
Record world := mkWorld {
  net : nat -> reply;
  calls : nat;
  trace : list event;
  bookmarks : gmap (string * string) Z
}.

Definition M (A : Type) : Type := world -> outcome A * world.

Definition ret {A} (a : A) : M A := fun w => (Ret a, w).

Definition raise {A} (e : exn) : M A := fun w => (Raise e, w).

Definition out_of_fuel {A} : M A := fun w => (Fuel, w).

Definition bind {A B} (m : M A) (k : A -> M B) : M B :=
  fun w =>
    match m w with
    | (Ret a, w') => k a w'
    | (Raise e, w') => (Raise e, w')
    | (Fuel, w') => (Fuel, w')
    end.

Definition lift {A} (o : outcome A) : M A := fun w => (o, w).

Notation "x <~ m ;; k" := (bind m (fun x => k))
  (at level 100, m at next level, right associativity).
Notation "m ;;; k" := (bind m (fun _ => k))
  (at level 100, right associativity).

(** [try: m except <caught>: handler]. *)
Definition try_except {A} (m : M A) (caught : exn -> bool) (handler : exn -> M A)
  : M A :=
  fun w =>
    match m w with
    | (Raise e, w') => if caught e then handler e w' else (Raise e, w')
    | other => other
    end.

Definition is_JSONDecodeError (e : exn) : bool :=
  match e with JSONDecodeError => true | _ => false end.

Definition emit (ev : event) : M unit :=
  fun w => (Ret tt, mkWorld (net w) (calls w) (trace w ++ [ev]) (bookmarks w)).

Definition log_info (m : logmsg) : M unit := emit (EvInfo m).
Definition log_error (m : logmsg) : M unit := emit (EvError m).
Definition sleep (delay : pynum) : M unit := emit (EvSleep delay).

(** [session.request(method='get', ...)]: the request goes out and the
    network's next reply comes back. *)
Definition session_request (url : string) (query : option params)
    (headers : container) : M response :=
  fun w =>
    let w' := mkWorld (net w) (S (calls w))
                (trace w ++ [EvRequest url query headers]) (bookmarks w) in
    match net w (calls w) with
    | Answer r => (Ret r, w')
    | Failure e => (Raise e, w')
    end.

(** ** http.py: authed_get *)

Definition CUSTOM_HEADERS : list (string * string) := [("X-SGUID", "3459112")].

(** [config[key]]. *)
Definition config_get (config : gmap string string) (key : string) : M string :=
  match config !! key with
  | Some v => ret v
  | None => raise KeyError
  end.

(** [with metrics.http_request_timer(tap_stream_id) as timer]: the timer
    reports when the block is left, with the status tag if it was set. *)
Definition http_request_timer (tap_stream_id : string) (block : M response)
  : M response :=
  fun w =>
    match block w with
    | (Ret resp, w') =>
        bind (emit (EvTimer tap_stream_id (Some (status_code resp))))
             (fun _ => ret resp) w'
    | (other, w') =>
        bind (emit (EvTimer tap_stream_id None)) (fun _ => lift other) w'
    end.

(** [authed_get], with the step that adds [CUSTOM_HEADERS] to the header
    set as a parameter. *)
Definition authed_get_with
    (merge : container -> list (string * string) -> outcome container)
    (tap_stream_id url : string) (config : gmap string string)
    (query : option params) : M response :=
  key <~ config_get config "api_key" ;;
  headers <~ lift (merge (PyDict [("Authorization", "Bearer " +:+ key)])
                         CUSTOM_HEADERS) ;;
  http_request_timer tap_stream_id (session_request url query headers).

(** [authed_get] as the source has it: [headers.extend(CUSTOM_HEADERS)]. *)
Definition authed_get := authed_get_with py_extend.

(** [authed_get] with [headers.update(CUSTOM_HEADERS)] in the place of
    [headers.extend(CUSTOM_HEADERS)]. It is not the transport of the
    program, which is [authed_get] above; it is a sample of a transport
    that does send requests, for the callers of the transport. *)
Definition authed_get_merged := authed_get_with py_update.

(** ** Resources and the run context *)

(** A resource descriptor ([streams.py]): identifier, endpoint template and
    the optional bookmark, a pair of the resource identifier and the name of
    the incremental strategy. *)
Record stream := {
  tap_stream_id : string;
  endpoint : string;
  bookmark : option (string * string)
}.

(** [template.format(arg)] for a template whose replacement fields are all
    of the form [{}]: one field is filled in, a second one has no argument
    left and raises [IndexError]. *)
Fixpoint str_format (template arg : string) (used : bool) : outcome string :=
  match template with
  | EmptyString => Ret EmptyString
  | String c rest =>
      match rest with
      | String c' rest' =>
          if (Ascii.eqb c "{"%char && Ascii.eqb c' "}"%char)%bool then
            if used then Raise IndexError
            else obind (str_format rest' arg true) (fun t => Ret (arg +:+ t))
          else obind (str_format rest arg used) (fun t => Ret (String c t))
      | EmptyString => Ret (String c EmptyString)
      end
  end.

(** [stream.endpoint.format(url_key) if url_key else stream.endpoint]; an
    empty key is as false as [None]. *)
Definition resolve_endpoint (s : stream) (url_key : option string)
  : outcome string :=
  match url_key with
  | Some k => if String.eqb k "" then Ret (endpoint s)
              else str_format (endpoint s) k false
  | None => Ret (endpoint s)
  end.

(** Modelled from the spec: the run context ([context.py] is not part of
    the sources). [now] is the current time of the run in epoch seconds
    (UTC), [start_date] the configured global start date. *)
Record context := {
  config : gmap string string;
  now : Z;
  start_date : Z
}.

(** Modelled from the spec: [ctx.update_start_date_bookmark(path)] is the
    bookmark, or the configured global start date on a first run. *)
Definition update_start_date_bookmark (ctx : context) (path : string * string)
  : M Z :=
  fun w =>
    (Ret (match bookmarks w !! path with
          | Some v => v
          | None => start_date ctx
          end), w).

(** Modelled from the spec: [ctx.set_bookmark(path, value)] overwrites the
    bookmark value in the state store. *)
Definition set_bookmark (path : string * string) (value : Z) : M unit :=
  fun w =>
    (Ret tt, mkWorld (net w) (calls w) (trace w ++ [EvSetBookmark path value])
                     (<[path := value]> (bookmarks w))).

(** Modelled from the spec: [ctx.now_seconds], [ctx.now_date_str()] and
    [ctx.ts_to_dt(ts)] are the current time and the conversions between the
    representations of a time; all times are epoch seconds here. *)
Definition now_seconds (ctx : context) : Z := now ctx.
Definition now_date_str (ctx : context) : Z := now ctx.
Definition ts_to_dt (ts : Z) : Z := ts.

(** [stream.bookmark] where a strategy hands it to the context; the
    strategies are dispatched to only for resources that have one. *)
Definition stream_bookmark (s : stream) : M (string * string) :=
  match bookmark s with
  | Some path => ret path
  | None => raise TypeError
  end.

(** [for x in xs: body(x)]. *)
Fixpoint for_each {A} (xs : list A) (body : A -> M unit) : M unit :=
  match xs with
  | [] => ret tt
  | x :: xs' => body x ;;; for_each xs' body
  end.

(** Helpers of [utils.py], which is not part of the sources, taken as
    parameters: the response-shape accessor and the trimming of records to
    the schema. *)
Record utils := {
  get_results_from_payload : json -> outcome json;
  trimmed_records : json -> json -> stream -> option json -> outcome json
}.

(** Modelled from the spec: [safe_update_dict(params, add_params)] merges
    the caller-supplied filter parameters in, when there are any. *)
Definition safe_update_dict (p : params) (add_params : option params) : params :=
  match add_params with
  | Some extra => dict_update p extra
  | None => p
  end.

(** ** The engine, over the function bound to the name [authed_get] *)

Section Engine.

(** [retry_get] looks the module-level name [authed_get] up when it
    runs; the engine is stated over whatever that name is bound to. *)
Variable the_authed_get :
  string -> string -> gmap string string -> option params -> M response.
Variable U : utils.
Variable ctx : context.

(** *** http.py: retry_get *)

Definition retries : nat := 20.
Definition initial_delay : pynum := PyInt 120.
Definition backoff : pynum := PyFloat (float_lit 3 (-1)).

(** The [while retries >= attempt] loop. [last] is the variable [r],
    unbound until the first response. *)
Fixpoint retry_loop (fuel : nat) (id url : string) (query : option params)
    (attempt : nat) (delay : pynum) (last : option response) : M response :=
  match fuel with
  | O => out_of_fuel
  | S fuel' =>
      if (attempt <=? retries)%nat then
        r <~ the_authed_get id url (config ctx) query ;;
        if status_code r >=? 500 then
          log_info (MsgBackoff (status_code r) attempt retries delay) ;;;
          sleep delay ;;;
          retry_loop fuel' id url query (S attempt) (py_mul delay backoff)
                     (Some r)
        else ret r
      else
        match last with
        | Some r =>
            log_error (MsgLatestStatus (status_code r)) ;;;
            log_error (MsgLatestContent (content r)) ;;;
            raise (ValueError
                     ("Failed 20 times trying to hit endpoint " +:+ url))
        | None => raise TypeError
        end
  end.

(** The loop tests its guard at most [retries + 1] times. *)
Definition retry_get (id url : string) (query : option params) : M response :=
  retry_loop (S retries) id url query 1 initial_delay None.

(** *** syncs.py: cursor strategies

    A generator is embedded with its consumer: [body] is the body of the
    [for] loop that iterates it, run at each [yield]. *)

Definition write_records (schema results : json) (s : stream)
    (added_properties : option json) : M unit :=
  records <~ lift (trimmed_records U schema results s added_properties) ;;
  emit (EvWrite (tap_stream_id s) records).

Definition page_size : Z := 1000.

(** [get_using_paged]. Only the evaluation of [r.json()] can raise inside
    the [try]: an exception of the consumer is not thrown into the
    generator. *)
Fixpoint get_using_paged_loop (fuel : nat) (s : stream) (url : string)
    (add_params : option params) (page : Z) (page_attempts : nat)
    (body : json -> M unit) : M unit :=
  match fuel with
  | O => out_of_fuel
  | S fuel' =>
      let query :=
        safe_update_dict [("page", page); ("page_size", page_size)] add_params in
      r <~ retry_get (tap_stream_id s) url (Some query) ;;
      decoded <~ try_except (j <~ lift (resp_json r) ;; ret (Some j))
                   is_JSONDecodeError (fun _ => ret None) ;;
      match decoded with
      | Some j =>
          body j ;;;
          fin <~ lift (end_of_records_check r) ;;
          if negb fin then
            get_using_paged_loop fuel' s url add_params (page + 1) 0 body
          else ret tt
      | None =>
          let page_attempts := S page_attempts in
          if (page_attempts <? 3)%nat then
            get_using_paged_loop fuel' s url add_params page page_attempts body
          else
            log_error (MsgStatusError (status_code r)) ;;;
            log_error (MsgInvalidContent (content r)) ;;;
            raise (ValueError "Error parsing file...")
      end
  end.

Definition get_using_paged (fuel : nat) (s : stream)
    (add_params : option params) (url_key : option string)
    (body : json -> M unit) : M unit :=
  url <~ lift (resolve_endpoint s url_key) ;;
  get_using_paged_loop fuel s url add_params 1 0 body.

Definition offset_limit : Z := 500.

Fixpoint get_using_offset_loop (fuel : nat) (s : stream) (url : string)
    (start end_ offset : Z) (body : json -> M unit) : M unit :=
  match fuel with
  | O => out_of_fuel
  | S fuel' =>
      resp <~ retry_get (tap_stream_id s) url
                (Some [("offset", offset); ("limit", offset_limit);
                       ("start_time", start); ("end_time", end_)]) ;;
      payload <~ lift (resp_json resp) ;;
      r <~ lift (get_results_from_payload U payload) ;;
      body r ;;;
      n <~ lift (py_len r) ;;
      if Z.of_nat n >=? offset_limit then
        get_using_offset_loop fuel' s url start end_ (offset + offset_limit) body
      else ret tt
  end.

Definition get_using_offset (fuel : nat) (s : stream) (start end_ : Z)
    (url_key : option string) (body : json -> M unit) : M unit :=
  url <~ lift (resolve_endpoint s url_key) ;;
  get_using_offset_loop fuel s url start end_ 0 body.

Definition members_limit : Z := 250000.

Fixpoint get_members_limits_loop (fuel : nat) (s : stream) (url : string)
    (offset : Z) (body : json -> M unit) : M unit :=
  match fuel with
  | O => out_of_fuel
  | S fuel' =>
      r <~ retry_get (tap_stream_id s) url
             (Some [("offset", offset); ("limit", members_limit)]) ;;
      j <~ try_except (lift (resp_json r)) is_JSONDecodeError
             (fun _ =>
                log_error (MsgStatusError (status_code r)) ;;;
                log_error (MsgInvalidContent (content r)) ;;;
                raise (ValueError "Error parsing file...")) ;;
      body j ;;;
      j' <~ lift (resp_json r) ;;
      n <~ lift (py_len j') ;;
      if negb (n =? 0)%nat then
        get_members_limits_loop fuel' s url (offset + members_limit) body
      else ret tt
  end.

Definition get_members_limits (fuel : nat) (s : stream)
    (url_key : option string) (body : json -> M unit) : M unit :=
  url <~ lift (resolve_endpoint s url_key) ;;
  get_members_limits_loop fuel s url 0 body.

(** *** syncs.py: incremental strategies *)

(** The body of the [for] loop of [write_paged_records]. *)
Definition write_paged_body (s : stream) (schema : json)
    (added_properties : option json) (res : json) : M unit :=
  results <~ try_except (lift (py_get res "recipients" JNull))
               is_JSONDecodeError
               (fun e => log_info (MsgResponse res) ;;; raise e) ;;
  if py_truthy results then write_records schema results s added_properties
  else ret tt.

Definition write_paged_records (fuel : nat) (s : stream) (schema : json)
    (query : option params) (url_key : option string)
    (added_properties : option json) : M unit :=
  get_using_paged fuel s query url_key
    (write_paged_body s schema added_properties).

Definition day_seconds : Z := 86400.

(** [dt.start_of('day')], in UTC. *)
Definition start_of_day (t : Z) : Z := t - t mod day_seconds.

Fixpoint days_loop (fuel : nat) (search_term : Z) (days_to_search : list Z)
  : outcome (list Z) :=
  match fuel with
  | O => Fuel
  | S fuel' =>
      if search_term <=? now ctx then
        days_loop fuel' (search_term + day_seconds)
                  (days_to_search ++ [search_term])
      else Ret days_to_search
  end.

Definition discrete_days_since_start (fuel : nat) (start : Z)
  : outcome (list Z) :=
  days_loop fuel (start_of_day start) [].

Definition sync_timestamp (fuel : nat) (s : stream) (schema : json) : M unit :=
  path <~ stream_bookmark s ;;
  start <~ update_start_date_bookmark ctx path ;;
  days <~ lift (discrete_days_since_start fuel start) ;;
  for_each days (fun day =>
    for_each ["created_at"; "updated_at"] (fun search_term =>
      log_info (MsgLooking search_term day) ;;;
      write_paged_records fuel s schema (Some [(search_term, day)]) None None) ;;;
    set_bookmark path (now_date_str ctx)).

Definition sync_end_time (fuel : nat) (s : stream) (schema : json) : M unit :=
  path <~ stream_bookmark s ;;
  start <~ update_start_date_bookmark ctx path ;;
  let end_ := now_seconds ctx in
  log_info (MsgStarting (tap_stream_id s) start end_) ;;;
  get_using_offset fuel s start end_ None (fun results =>
    write_records schema results s None ;;;
    set_bookmark path (ts_to_dt end_)).

Definition sync_member_count_limits (fuel : nat) (s : stream) (schema : json)
  : M unit :=
  log_info (MsgStartingExtract (tap_stream_id s)) ;;;
  get_members_limits fuel s None (fun results =>
    write_records schema results s None).

End Engine.

(** ** Reading a run off the trace *)

(** The events of the transport: what [retry_get] and the function it
    calls can add to the trace. *)
Definition is_transport (ev : event) : bool :=
  match ev with
  | EvRequest _ _ _ | EvTimer _ _ | EvSleep _ => true
  | EvInfo (MsgBackoff _ _ _ _) => true
  | EvError (MsgLatestStatus _) | EvError (MsgLatestContent _) => true
  | _ => false
  end.

Definition is_set_bookmark (ev : event) : bool :=
  match ev with EvSetBookmark _ _ => true | _ => false end.


(** The bookmark store after the writes recorded in [es]. *)
Definition replay (es : list event) (store : gmap (string * string) Z)
  : gmap (string * string) Z :=
  fold_left (fun st ev =>
               match ev with
               | EvSetBookmark path v => <[path := v]> st
               | _ => st
               end) es store.

(** [w'] continues [w]: same network, and the trace grew by events that
    satisfy [P], whose bookmark writes account for the store. *)
Definition grows (P : event -> Prop) (w w' : world) : Prop :=
  net w' = net w /\
  exists es, trace w' = trace w ++ es /\ Forall P es /\
             bookmarks w' = replay es (bookmarks w).

Definition emits {A} (P : event -> Prop) (m : M A) : Prop :=
  forall w, grows P w (snd (m w)).






(** The header set of a request once the fixed header is merged in. *)
Definition merged_headers (key : string) : container :=
  PyDict [("Authorization", "Bearer " +:+ key); ("X-SGUID", "3459112")].


(** The callers of [authed_get] take it as a parameter. *)
Definition transport : Type :=
  string -> string -> gmap string string -> option params -> M response.








(** [write_paged_body] without its [try]/[except]. *)
Definition write_paged_body_unguarded (U : utils) (s : stream) (schema : json)
    (added_properties : option json) (res : json) : M unit :=
  results <~ lift (py_get res "recipients" JNull) ;;
  if py_truthy results then write_records U schema results s added_properties
  else ret tt.

Definition write_paged_records_unguarded
    (the_authed_get :
       string -> string -> gmap string string -> option params -> M response)
    (U : utils) (ctx : context) (fuel : nat) (s : stream) (schema : json)
    (query : option params) (url_key : option string)
    (added_properties : option json) : M unit :=
  get_using_paged the_authed_get ctx fuel s query url_key
    (write_paged_body_unguarded U s schema added_properties).

(** The log statement of the [except] branch of [write_paged_records]. *)
Definition is_response_log (ev : event) : bool :=
  match ev with EvInfo (MsgResponse _) => true | _ => false end.



Definition offset_query (offset start end_ : Z) : option params :=
  Some [("offset", offset); ("limit", offset_limit);
        ("start_time", start); ("end_time", end_)].


(** The world with the events [es] added to its trace. *)
Definition logged (w : world) (es : list event) : world :=
  mkWorld (net w) (calls w) (trace w ++ es) (bookmarks w).

(** The queries of the requests in a stretch of trace, in order. *)
Definition request_queries (es : list event) : list (option params) :=
  flat_map (fun ev => match ev with EvRequest _ q _ => [q] | _ => [] end) es.



(** Whole calendar days from the day of [a] to the day of [b] (UTC). *)
Definition days_between (a b : Z) : Z :=
  (start_of_day b - start_of_day a) / day_seconds.

(** The paged searches announced in a stretch of trace, in order: the
    search field and the day of each "Looking for contacts" log, which
    [sync_timestamp] writes once before each call of
    [write_paged_records]. *)
Definition searches (es : list event) : list (string * Z) :=
  flat_map (fun ev => match ev with
                      | EvInfo (MsgLooking term day) => [(term, day)]
                      | _ => []
                      end) es.

(** The days [first], [first] + 1 day, ... ([n] of them). *)
Definition day_range (first : Z) (n : nat) : list Z :=
  map (fun k => first + day_seconds * Z.of_nat k) (seq 0 n).


(** The search a request belongs to: the search field and the day among
    the parameters of its query. *)
Definition query_search (q : option params) : list (string * Z) :=
  match q with
  | Some ps =>
      List.filter (fun kv => (String.eqb (fst kv) "created_at"
                              || String.eqb (fst kv) "updated_at")%bool) ps
  | None => []
  end.

(** The searches the requests of a stretch of trace belong to, in order,
    one entry per request sent. *)
Definition fetched_searches (es : list event) : list (string * Z) :=
  flat_map query_search (request_queries es).


(** The events a paged search can add to the trace. *)
Definition is_paged_event (ev : event) : bool :=
  match ev with
  | EvError (MsgStatusError _) | EvError (MsgInvalidContent _) => true
  | EvInfo (MsgResponse _) => true
  | EvWrite _ _ => true
  | _ => is_transport ev
  end.

(** The two incremental strategies that set the bookmark, as
    [sync_incrementals] dispatches on [stream.bookmark[1]]. *)
Inductive strategy :=
| Timestamp
| EndTime.

Definition sync_incremental (tr : transport) (strat : strategy) (U : utils)
    (ctx : context) (fuel : nat) (s : stream) (schema : json) : M unit :=
  match strat with
  | Timestamp => sync_timestamp tr U ctx fuel s schema
  | EndTime => sync_end_time tr U ctx fuel s schema
  end.

(** The stored bookmark after each sync of a sequence of syncs of one
    resource, each with the context (and current time) of its own run. *)
Fixpoint bookmark_history (tr : transport) (strat : strategy) (U : utils)
    (s : stream) (schema : json) (path : string * string)
    (runs : list (context * nat)) (w : world) : list (option Z) :=
  match runs with
  | [] => []
  | (ctx, fuel) :: rest =>
      let w' := snd (sync_incremental tr strat U ctx fuel s schema w) in
      (bookmarks w' !! path)
      :: bookmark_history tr strat U s schema path rest w'
  end.

(** The current times of the runs do not decrease, from [lo] on. *)
Fixpoint clocks_from (lo : Z) (runs : list (context * nat)) : Prop :=
  match runs with
  | [] => True
  | (ctx, _) :: rest => lo <= now ctx /\ clocks_from (now ctx) rest
  end.

(** [vs] does not decrease, from [lo] on. *)
Fixpoint ascending (lo : Z) (vs : list Z) : Prop :=
  match vs with
  | [] => True
  | v :: rest => lo <= v /\ ascending v rest
  end.





(** ** Scenarios *)

Definition not_found_zero_count : response :=
  {| status_code := 404;
     content := "";
     body := Some (JDict [("errors", JList [JDict [("message", JStr "Not found")]]);
                          ("recipient_count", JInt 0)]) |}.

Definition no_more_pages_response : response :=
  {| status_code := 404;
     content := "";
     body := Some (JDict [("errors",
                           JList [JDict [("message", JStr "No more pages")]])]) |}.

Definition server_error_response : response :=
  {| status_code := 503; content := "Service Unavailable"; body := None |}.

Definition demo_config : gmap string string := {["api_key" := "SG.key"]}.

Definition demo_ctx : context :=
  {| config := demo_config; now := 1000; start_date := 0 |}.

Definition world_of (nt : nat -> reply) : world := mkWorld nt 0 [] ∅.

Definition demo_utils : utils :=
  {| get_results_from_payload := fun payload => Ret payload;
     trimmed_records := fun _ results _ _ => Ret results |}.

Definition bounces : stream :=
  {| tap_stream_id := "bounces";
     endpoint := "/v3/suppression/bounces";
     bookmark := Some ("bounces", "end_time") |}.

Definition contacts : stream :=
  {| tap_stream_id := "contacts";
     endpoint := "/v3/contactdb/recipients/search";
     bookmark := Some ("contacts", "timestamp") |}.

(** A 200 response whose body is a list of [n] records. *)
Definition batch_response (n : nat) : response :=
  {| status_code := 200;
     content := "";
     body := Some (JList (replicate n (JDict [("email", JStr "a@b.c")]))) |}.

(** A full batch of 500 records, then batches of 10. *)
Definition two_batches (i : nat) : reply :=
  match i with
  | O => Answer (batch_response 500)
  | S _ => Answer (batch_response 10)
  end.



(** Every bookmark write of a stretch of trace writes [v] at [path]. *)
Definition writes_only (path : string * string) (v : Z) (ev : event) : Prop :=
  forall p x, ev = EvSetBookmark p x -> p = path /\ x = v.

(** A state whose bookmark for [bounces] lies before the run's [now]. *)
Definition past_bookmark_world : world :=
  mkWorld two_batches 0 [] {[("bounces", "end_time") := 500]}.

(** The scenario of the specification: the bookmark lies in day D (here
    day 0, at 02:00), the current time in day D + 2 (at 01:00), and every
    search ends on its first page. *)
Definition three_day_ctx : context :=
  {| config := demo_config; now := 2 * 86400 + 3600; start_date := 0 |}.

Definition three_day_world : world :=
  mkWorld (fun _ => Answer no_more_pages_response) 0 []
    {[("contacts", "timestamp") := 7200]}.

Definition later_ctx : context :=
  {| config := demo_config; now := 3000; start_date := 0 |}.

Definition is_dict (j : json) : bool :=
  match j with JDict _ => true | _ => false end.

(** Two server errors, then batches of 10 records. *)
Definition flaky (i : nat) : reply :=
  if (i <? 2)%nat then Answer server_error_response
  else Answer (batch_response 10).


Definition zero_count_response : response :=
  {| status_code := 200;
     content := "";
     body := Some (JDict [("recipient_count", JInt 0)]) |}.

Definition empty_errors_response : response :=
  {| status_code := 404;
     content := "";
     body := Some (JDict [("errors", JList [])]) |}.






(** One full batch, then server errors for good. *)
Definition full_then_down (i : nat) : reply :=
  match i with
  | O => Answer (batch_response 500)
  | S _ => Answer server_error_response
  end.

(** The value read at the start of a window: the stored bookmark, or the
    configured start date. *)
Definition window_start (ctx : context) (path : string * string) (w : world)
  : Z :=
  match bookmarks w !! path with
  | Some v => v
  | None => start_date ctx
  end.





(** * Properties *)

(** ** The monad *)


Lemma bind_Raise {A B} (m : M A) (k : A -> M B) w e w1 :
  m w = (Raise e, w1) -> bind m k w = (Raise e, w1).
Proof. intros H. unfold bind. now rewrite H. Qed.

Lemma bind_Ret_inv {A B} (m : M A) (k : A -> M B) w b w' :
  bind m k w = (Ret b, w') ->
  exists a w1, m w = (Ret a, w1) /\ k a w1 = (Ret b, w').
Proof.
  unfold bind. destruct (m w) as [[a|e|] w1]; intros H; try discriminate.
  now exists a, w1.
Qed.


(** ** End-of-records predicate *)

Lemma py_eq_str_true v s : py_eq_str v s = true <-> v = JStr s.
Proof.
  destruct v; simpl; split; intros H; try discriminate.
  - apply String.eqb_eq in H. now subst.
  - inversion H. apply String.eqb_refl.
Qed.

Lemma py_eq_str_false v s : py_eq_str v s = false <-> v <> JStr s.
Proof.
  rewrite <- py_eq_str_true. destruct (py_eq_str v s); split; congruence.
Qed.

Lemma no_more_pages_404 r j m :
  status_code r = 404 -> body r = Some j -> first_error_message j = Ret m ->
  no_more_pages r = Ret (py_eq_str m empty_message).
Proof.
  intros Hs Hb Hm. unfold no_more_pages, resp_json. rewrite Hs, Hb. simpl.
  unfold first_error_message in Hm.
  destruct (py_get j "errors" (JList [JDict []])) as [errs| |]; try discriminate.
  simpl in *. destruct (py_getitem0 errs) as [e0| |]; try discriminate.
  simpl in *. now rewrite Hm.
Qed.

Lemma first_error_message_dict j m :
  first_error_message j = Ret m -> exists d, j = JDict d.
Proof.
  destruct j; try discriminate. intros _. now eexists.
Qed.

(** C3, as the code has it. At status 404, when the first entry of the
    body's error list has message exactly "No more pages",
    [end_of_records_check] returns true; for any other first-error message
    it returns true when the body's [recipient_count] equals 0 and false
    otherwise (also when the field is absent). *)
Theorem end_of_records_check_404 (r : response) (j m : json) :
  status_code r = 404 -> body r = Some j -> first_error_message j = Ret m ->
  (m = JStr empty_message -> end_of_records_check r = Ret true) /\
  (m <> JStr empty_message ->
   exists rc, py_get j "recipient_count" JNull = Ret rc /\
              end_of_records_check r = Ret (py_eq_zero rc)).
Proof.
  intros Hs Hb Hm. unfold end_of_records_check.
  rewrite (no_more_pages_404 r j m Hs Hb Hm). split.
  - intros ->. reflexivity.
  - intros Hne. apply py_eq_str_false in Hne. rewrite Hne. simpl.
    destruct (first_error_message_dict j m Hm) as [d ->].
    unfold resp_json. rewrite Hb. simpl.
    eexists. split; [reflexivity|]. now destruct (py_eq_zero _).
Qed.

Lemma end_of_records_check_404_witness :
  end_of_records_check no_more_pages_response = Ret true.
Proof.
  apply (end_of_records_check_404 no_more_pages_response
           (JDict [("errors", JList [JDict [("message", JStr "No more pages")]])])
           (JStr "No more pages")); reflexivity.
Defined.

(** C3, as stated, fails: a 404 response whose first error message is
    "Not found" and whose body has [recipient_count] 0 is reported as the
    end of the records. *)
Lemma end_of_records_check_404_other_message :
  status_code not_found_zero_count = 404 /\
  (exists j, body not_found_zero_count = Some j /\
             first_error_message j = Ret (JStr "Not found")) /\
  JStr "Not found" <> JStr empty_message /\
  end_of_records_check not_found_zero_count = Ret true.
Proof.
  split; [reflexivity|]. split.
  - eexists. split; reflexivity.
  - split; [discriminate | reflexivity].
Qed.

(** ** Transport *)

(** C1: [authed_get], as written, sends nothing. With a configured
    [api_key] the call raises [AttributeError] at [headers.extend] (a
    [dict] has no such method), without one it raises [KeyError]; either
    way the world is left as it was: no request goes out. *)
Theorem authed_get_raises (id url : string) (cfg : gmap string string)
    (query : option params) (w : world) :
  authed_get id url cfg query w =
  (Raise (match cfg !! "api_key" with
          | Some _ => AttributeError
          | None => KeyError
          end), w).
Proof.
  unfold authed_get, authed_get_with, config_get.
  destruct (cfg !! "api_key"); reflexivity.
Qed.

Lemma authed_get_merged_answer id url cfg query w key r :
  cfg !! "api_key" = Some key -> net w (calls w) = Answer r ->
  authed_get_merged id url cfg query w =
  (Ret r, mkWorld (net w) (S (calls w))
            (trace w ++ [EvRequest url query (merged_headers key);
                         EvTimer id (Some (status_code r))])
            (bookmarks w)).
Proof.
  intros Hk Hn. unfold authed_get_merged, authed_get_with, config_get.
  rewrite Hk. unfold bind, ret, lift, http_request_timer, session_request, emit.
  simpl. rewrite Hn. unfold bind, ret. simpl. now rewrite <- app_assoc.
Qed.

(** ** Transports that deliver *)





(** ** What a computation adds to the trace *)

Lemma replay_app es1 es2 store :
  replay (es1 ++ es2) store = replay es2 (replay es1 store).
Proof. unfold replay. apply fold_left_app. Qed.

Lemma grows_refl P w : grows P w w.
Proof.
  split; [reflexivity|]. exists []. rewrite app_nil_r. repeat split.
  constructor.
Qed.

Lemma grows_trans P w w1 w2 : grows P w w1 -> grows P w1 w2 -> grows P w w2.
Proof.
  intros [Hn1 (es1 & Ht1 & Hf1 & Hb1)] [Hn2 (es2 & Ht2 & Hf2 & Hb2)].
  split; [congruence|]. exists (es1 ++ es2). repeat split.
  - now rewrite Ht2, Ht1, app_assoc.
  - apply Forall_app. now split.
  - now rewrite Hb2, Hb1, replay_app.
Qed.

Lemma grows_weaken (P Q : event -> Prop) w w' :
  (forall ev, P ev -> Q ev) -> grows P w w' -> grows Q w w'.
Proof.
  intros HPQ [Hn (es & Ht & Hf & Hb)]. split; [exact Hn|].
  exists es. repeat split; try assumption.
  eapply Forall_impl; eauto.
Qed.

Lemma grows_one (P : event -> Prop) w ev :
  P ev -> is_set_bookmark ev = false ->
  grows P w (mkWorld (net w) (calls w) (trace w ++ [ev]) (bookmarks w)).
Proof.
  intros HP Hs. split; [reflexivity|]. exists [ev]. repeat split.
  - now constructor.
  - simpl. destruct ev; try reflexivity. discriminate.
Qed.

Lemma emits_weaken {A} (P Q : event -> Prop) (m : M A) :
  (forall ev, P ev -> Q ev) -> emits P m -> emits Q m.
Proof. intros HPQ Hm w. eapply grows_weaken; eauto. Qed.

Lemma emits_ret {A} P (a : A) : emits P (ret a).
Proof. intros w. apply grows_refl. Qed.

Lemma emits_raise {A} P e : emits P (@raise A e).
Proof. intros w. apply grows_refl. Qed.

Lemma emits_lift {A} P (o : outcome A) : emits P (lift o).
Proof. intros w. apply grows_refl. Qed.

Lemma emits_out_of_fuel {A} P : emits P (@out_of_fuel A).
Proof. intros w. apply grows_refl. Qed.

Lemma emits_bind {A B} P (m : M A) (k : A -> M B) :
  emits P m -> (forall a, emits P (k a)) -> emits P (bind m k).
Proof.
  intros Hm Hk w. specialize (Hm w). unfold bind.
  destruct (m w) as [[a|e|] w1]; simpl in *; try assumption.
  eapply grows_trans; [exact Hm | apply Hk].
Qed.

Lemma emits_try_except {A} P (m : M A) caught handler :
  emits P m -> (forall e, emits P (handler e)) ->
  emits P (try_except m caught handler).
Proof.
  intros Hm Hh w. specialize (Hm w). unfold try_except.
  destruct (m w) as [[a|e|] w1]; simpl in *; try assumption.
  destruct (caught e); simpl; [|assumption].
  eapply grows_trans; [exact Hm | apply Hh].
Qed.

Lemma emits_emit (P : event -> Prop) ev :
  P ev -> is_set_bookmark ev = false -> emits P (emit ev).
Proof. intros HP Hs w. now apply grows_one. Qed.

Lemma emits_set_bookmark (P : event -> Prop) path v :
  P (EvSetBookmark path v) -> emits P (set_bookmark path v).
Proof.
  intros HP w. split; [reflexivity|]. exists [EvSetBookmark path v].
  repeat split. now constructor.
Qed.

Lemma emits_update_start_date_bookmark P ctx path :
  emits P (update_start_date_bookmark ctx path).
Proof. intros w. apply grows_refl. Qed.

Lemma emits_stream_bookmark P s : emits P (stream_bookmark s).
Proof.
  unfold stream_bookmark. destruct (bookmark s);
    [apply emits_ret | apply emits_raise].
Qed.

Lemma emits_for_each {A} P (xs : list A) (body : A -> M unit) :
  (forall x, emits P (body x)) -> emits P (for_each xs body).
Proof.
  intros Hb. induction xs as [|x xs IH]; simpl.
  - apply emits_ret.
  - apply emits_bind; [apply Hb | intros _; exact IH].
Qed.

Lemma emits_session_request (P : event -> Prop) url query headers :
  P (EvRequest url query headers) ->
  emits P (session_request url query headers).
Proof.
  intros HP w. unfold session_request.
  assert (grows P w (mkWorld (net w) (S (calls w))
                       (trace w ++ [EvRequest url query headers])
                       (bookmarks w))) as G.
  { split; [reflexivity|]. exists [EvRequest url query headers].
    repeat split. now constructor. }
  destruct (net w (calls w)); exact G.
Qed.

Lemma emits_http_request_timer (P : event -> Prop) id block :
  (forall st, P (EvTimer id st)) -> emits P block ->
  emits P (http_request_timer id block).
Proof.
  intros HP Hb w. specialize (Hb w). unfold http_request_timer.
  destruct (block w) as [[r|e|] w1]; simpl in *;
    (eapply grows_trans; [exact Hb|]); unfold bind, emit, ret, lift; simpl;
    now apply grows_one.
Qed.

Lemma emits_authed_get_with (P : event -> Prop) merge id url cfg query :
  (forall ev, is_transport ev = true -> P ev) ->
  emits P (authed_get_with merge id url cfg query).
Proof.
  intros HP. unfold authed_get_with.
  apply emits_bind.
  { unfold config_get. destruct (cfg !! "api_key");
      [apply emits_ret | apply emits_raise]. }
  intros key. apply emits_bind; [apply emits_lift|].
  intros headers. apply emits_http_request_timer.
  - intros st. now apply HP.
  - apply emits_session_request. now apply HP.
Qed.


Section EngineEmits.

Variable the_authed_get :
  string -> string -> gmap string string -> option params -> M response.
Variable U : utils.
Variable ctx : context.
Variable P : event -> Prop.

Hypothesis transport_P : forall ev, is_transport ev = true -> P ev.
Hypothesis authed_get_P :
  forall id url query, emits P (the_authed_get id url (config ctx) query).

Lemma emits_retry_loop fuel id url query attempt delay last :
  emits P (retry_loop the_authed_get ctx fuel id url query attempt delay last).
Proof using transport_P authed_get_P.
  revert attempt delay last.
  induction fuel as [|fuel IH]; intros attempt delay last; simpl.
  - apply emits_out_of_fuel.
  - destruct (attempt <=? retries)%nat.
    + apply emits_bind; [apply authed_get_P|]. intros r.
      destruct (status_code r >=? 500); [|apply emits_ret].
      apply emits_bind; [apply emits_emit; auto|]. intros _.
      apply emits_bind; [apply emits_emit; auto|]. intros _.
      apply IH.
    + destruct last as [r|]; [|apply emits_raise].
      apply emits_bind; [apply emits_emit; auto|]. intros _.
      apply emits_bind; [apply emits_emit; auto|]. intros _.
      apply emits_raise.
Qed.

Lemma emits_retry_get id url query :
  emits P (retry_get the_authed_get ctx id url query).
Proof using transport_P authed_get_P. apply emits_retry_loop. Qed.

Lemma emits_write_records schema results s added :
  (forall recs, P (EvWrite (tap_stream_id s) recs)) ->
  emits P (write_records U schema results s added).
Proof.
  intros HW. unfold write_records.
  apply emits_bind; [apply emits_lift|]. intros recs.
  now apply emits_emit.
Qed.

Lemma emits_get_using_offset_loop fuel s url start end_ offset body :
  (forall r, emits P (body r)) ->
  emits P (get_using_offset_loop the_authed_get U ctx fuel s url start end_
             offset body).
Proof using transport_P authed_get_P.
  intros Hb. revert offset.
  induction fuel as [|fuel IH]; intros offset; simpl.
  - apply emits_out_of_fuel.
  - apply emits_bind; [apply emits_retry_get|]. intros resp.
    apply emits_bind; [apply emits_lift|]. intros payload.
    apply emits_bind; [apply emits_lift|]. intros r.
    apply emits_bind; [apply Hb|]. intros _.
    apply emits_bind; [apply emits_lift|]. intros n.
    destruct (Z.of_nat n >=? offset_limit); [apply IH | apply emits_ret].
Qed.

Lemma emits_get_using_paged_loop fuel s url add_params page attempts body :
  (forall st, P (EvError (MsgStatusError st))) ->
  (forall c, P (EvError (MsgInvalidContent c))) ->
  (forall r, emits P (body r)) ->
  emits P (get_using_paged_loop the_authed_get ctx fuel s url add_params page
             attempts body).
Proof using transport_P authed_get_P.
  intros H1 H2 Hb. revert page attempts.
  induction fuel as [|fuel IH]; intros page attempts; simpl.
  - apply emits_out_of_fuel.
  - apply emits_bind; [apply emits_retry_get|]. intros r.
    apply emits_bind.
    { apply emits_try_except.
      - apply emits_bind; [apply emits_lift|]. intros j. apply emits_ret.
      - intros _. apply emits_ret. }
    intros [j|].
    + apply emits_bind; [apply Hb|]. intros _.
      apply emits_bind; [apply emits_lift|]. intros fin.
      destruct (negb fin); [apply IH | apply emits_ret].
    + destruct (S attempts <? 3)%nat; [apply IH|].
      apply emits_bind; [apply emits_emit; auto|]. intros _.
      apply emits_bind; [apply emits_emit; auto|]. intros _.
      apply emits_raise.
Qed.

End EngineEmits.

(** ** Retry with backoff *)
















Lemma demo_key : config demo_ctx !! "api_key" = Some "SG.key".
Proof. reflexivity. Qed.







(** ** The decode-error handler of write_paged_records *)

Lemma bind_ext {A B} (m1 m2 : M A) (k1 k2 : A -> M B) w :
  m1 w = m2 w -> (forall a w', k1 a w' = k2 a w') ->
  bind m1 k1 w = bind m2 k2 w.
Proof.
  intros Hm Hk. unfold bind. rewrite Hm.
  destruct (m2 w) as [[a|e|] w1]; auto.
Qed.

Lemma py_get_not_decode_error res key default :
  py_get res key default <> Raise JSONDecodeError.
Proof. destruct res; discriminate. Qed.

Lemma write_paged_body_unguarded_eq U s schema added res w :
  write_paged_body U s schema added res w
  = write_paged_body_unguarded U s schema added res w.
Proof.
  unfold write_paged_body, write_paged_body_unguarded.
  apply bind_ext; [|reflexivity].
  unfold try_except, lift. now destruct res.
Qed.

Lemma get_using_paged_loop_ext the_authed_get ctx s url add_params
    (body1 body2 : json -> M unit) :
  (forall j w, body1 j w = body2 j w) ->
  forall fuel page attempts w,
  get_using_paged_loop the_authed_get ctx fuel s url add_params page attempts
    body1 w
  = get_using_paged_loop the_authed_get ctx fuel s url add_params page attempts
      body2 w.
Proof.
  intros Hb. induction fuel as [|fuel IH]; intros page attempts w;
    [reflexivity|].
  cbn [get_using_paged_loop]. apply bind_ext; [reflexivity|]. intros r w1.
  apply bind_ext; [reflexivity|]. intros [j|] w2.
  - apply bind_ext; [apply Hb|]. intros _ w3.
    apply bind_ext; [reflexivity|]. intros fin w4.
    destruct (negb fin); [apply IH | reflexivity].
  - destruct (S attempts <? 3)%nat; [apply IH | reflexivity].
Qed.

Lemma write_paged_records_unguarded_eq the_authed_get U ctx fuel s schema query
    url_key added w :
  write_paged_records the_authed_get U ctx fuel s schema query url_key added w
  = write_paged_records_unguarded the_authed_get U ctx fuel s schema query
      url_key added w.
Proof.
  unfold write_paged_records, write_paged_records_unguarded, get_using_paged.
  apply bind_ext; [reflexivity|]. intros url w1.
  apply get_using_paged_loop_ext. intros j w2.
  apply write_paged_body_unguarded_eq.
Qed.

Lemma transport_not_response_log ev :
  is_transport ev = true -> is_response_log ev = false.
Proof. destruct ev as [| | |m|m| |]; try destruct m; simpl; congruence. Qed.

Lemma emits_write_paged_records_unguarded merge U ctx fuel s schema query
    url_key added :
  emits (fun ev => is_response_log ev = false)
    (write_paged_records_unguarded (authed_get_with merge) U ctx fuel s schema
       query url_key added).
Proof.
  unfold write_paged_records_unguarded, get_using_paged.
  apply emits_bind; [apply emits_lift|]. intros url.
  apply emits_get_using_paged_loop; try reflexivity.
  - apply transport_not_response_log.
  - intros id u q. apply emits_authed_get_with.
    apply transport_not_response_log.
  - intros res. unfold write_paged_body_unguarded.
    apply emits_bind; [apply emits_lift|]. intros results.
    destruct (py_truthy results); [|apply emits_ret].
    apply emits_write_records. reflexivity.
Qed.

(** C10: in [write_paged_records], [res.get('recipients')] never raises
    [JSONDecodeError]; the [except JSONDecodeError] branch is therefore dead:
    with any transport, the function runs exactly as it does with the
    [try]/[except] removed, and no run logs the branch's "Response" message. *)
Theorem write_paged_records_handler_unreachable :
  (forall res, py_get res "recipients" JNull <> Raise JSONDecodeError) /\
  (forall the_authed_get U ctx fuel s schema query url_key added w,
     write_paged_records the_authed_get U ctx fuel s schema query url_key
       added w
     = write_paged_records_unguarded the_authed_get U ctx fuel s schema query
         url_key added w) /\
  (forall merge U ctx fuel s schema query url_key added w,
     exists es,
       trace (snd (write_paged_records (authed_get_with merge) U ctx fuel s
                     schema query url_key added w)) = trace w ++ es /\
       Forall (fun ev => is_response_log ev = false) es).
Proof.
  split; [|split].
  - intros res. apply py_get_not_decode_error.
  - intros. apply write_paged_records_unguarded_eq.
  - intros. rewrite write_paged_records_unguarded_eq.
    destruct (emits_write_paged_records_unguarded merge U ctx fuel s schema
                query url_key added w) as [_ (es & Ht & Hf & _)].
    now exists es.
Qed.

(** ** Cursor strategies *)


Lemma lift_bind {A B} (o : outcome A) (a : A) (k : A -> M B) w :
  o = Ret a -> bind (lift o) k w = k a w.
Proof. intros ->. reflexivity. Qed.



(** The scenario of the specification, on a sample transport: a batch of
    500 records, then one of 10, makes exactly two fetches, at offsets 0
    and 500. *)
Lemma offset_window_two_batches :
  let run := get_using_offset authed_get_merged demo_utils demo_ctx 5 bounces
               0 1000 None (fun _ => ret tt) (world_of two_batches) in
  fst run = Ret tt /\ calls (snd run) = 2%nat /\
  request_queries (trace (snd run))
  = [offset_query 0 0 1000; offset_query 500 0 1000].
Proof. vm_compute. repeat split. Qed.

(** ** Malformed responses *)





(** ** Start/end timestamp strategy *)

Tactic Notation "invert_bind" hyp(H) "as" ident(a) ident(w1) ident(H1) :=
  apply bind_Ret_inv in H as (a & w1 & H1 & H).


Lemma retry_get_grows merge ctx id url query w r w' :
  retry_get (authed_get_with merge) ctx id url query w = (r, w') ->
  grows (fun ev => is_transport ev = true) w w'.
Proof.
  intros H.
  pose proof (emits_retry_get (authed_get_with merge) ctx
                (fun ev => is_transport ev = true) (fun _ Ht => Ht)
                (fun i u q => emits_authed_get_with _ merge i u _ q
                                (fun _ Ht => Ht))
                id url query w) as G.
  now rewrite H in G.
Qed.






(** *** The program's transport *)






(** ** Bookmark values *)

Lemma emits_bind_ret {A B} P (a : A) (k : A -> M B) :
  emits P (k a) -> emits P (bind (ret a) k).
Proof. intros H w. exact (H w). Qed.

Lemma transport_writes_only path v ev :
  is_transport ev = true -> writes_only path v ev.
Proof. intros Ht p x ->. discriminate. Qed.

Lemma emits_authed_get_writes_only path v merge id url cfg query :
  emits (writes_only path v) (authed_get_with merge id url cfg query).
Proof. apply emits_authed_get_with, transport_writes_only. Qed.

Lemma emits_sync_end_time merge U ctx fuel s schema path :
  bookmark s = Some path ->
  emits (writes_only path (now ctx))
    (sync_end_time (authed_get_with merge) U ctx fuel s schema).
Proof.
  intros Hp. unfold sync_end_time, stream_bookmark. rewrite Hp.
  apply emits_bind_ret.
  apply emits_bind; [apply emits_update_start_date_bookmark|]. intros start.
  apply emits_bind; [apply emits_emit; [intros p x; discriminate | reflexivity]|].
  intros _. unfold get_using_offset.
  apply emits_bind; [apply emits_lift|]. intros url.
  apply emits_get_using_offset_loop.
  - apply transport_writes_only.
  - intros id u q. apply emits_authed_get_writes_only.
  - intros r. apply emits_bind.
    + apply emits_write_records. intros recs p x. discriminate.
    + intros _. apply emits_set_bookmark. intros p x H. now inversion H.
Qed.

Lemma emits_write_paged_records merge U ctx fuel s schema query url_key added :
  emits (fun ev => is_paged_event ev = true)
    (write_paged_records (authed_get_with merge) U ctx fuel s schema
       query url_key added).
Proof.
  assert (forall ev, is_transport ev = true -> is_paged_event ev = true) as HT.
  { intros ev Ht. destruct ev as [| | |m|m| |]; try destruct m;
      try reflexivity; discriminate. }
  unfold write_paged_records, get_using_paged.
  apply emits_bind; [apply emits_lift|]. intros url.
  apply emits_get_using_paged_loop; try reflexivity.
  - exact HT.
  - intros id u q. now apply emits_authed_get_with.
  - intros res. unfold write_paged_body.
    apply emits_bind.
    + apply emits_try_except; [apply emits_lift|]. intros e.
      apply emits_bind; [apply emits_emit; reflexivity|].
      intros _. apply emits_raise.
    + intros results. destruct (py_truthy results); [|apply emits_ret].
      apply emits_write_records. reflexivity.
Qed.

Lemma emits_sync_timestamp merge U ctx fuel s schema path :
  bookmark s = Some path ->
  emits (writes_only path (now ctx))
    (sync_timestamp (authed_get_with merge) U ctx fuel s schema).
Proof.
  intros Hp. unfold sync_timestamp, stream_bookmark. rewrite Hp.
  apply emits_bind_ret.
  apply emits_bind; [apply emits_update_start_date_bookmark|]. intros start.
  apply emits_bind; [apply emits_lift|]. intros days.
  apply emits_for_each. intros day.
  apply emits_bind.
  - apply emits_for_each. intros term.
    apply emits_bind;
      [apply emits_emit; [intros p x; discriminate | reflexivity]|].
    intros _. eapply emits_weaken; [|apply emits_write_paged_records].
    intros ev Hev p x ->. discriminate.
  - intros _. apply emits_set_bookmark. intros p x H. now inversion H.
Qed.

Lemma replay_writes_only path v es :
  Forall (writes_only path v) es ->
  forall store v0, store !! path = Some v0 -> v0 <= v ->
  exists v1, replay es store !! path = Some v1 /\ v0 <= v1 <= v.
Proof.
  induction 1 as [|ev es Hev Hes IH]; intros store v0 H0 Hle.
  - exists v0. split; [exact H0 | lia].
  - unfold replay. cbn [fold_left]. fold (replay es).
    destruct ev as [| | | | | |p x]; try (now apply IH).
    destruct (Hev p x eq_refl) as [-> ->].
    destruct (IH (<[path := v]> store) v (lookup_insert_eq _ _ _)
                ltac:(lia)) as (v1 & H1 & Hle1).
    exists v1. split; [exact H1 | lia].
Qed.

(** One sync writes nothing to the bookmark but its current time. *)
Lemma sync_writes_now merge strat U ctx fuel s schema path w :
  bookmark s = Some path ->
  grows (writes_only path (now ctx)) w
    (snd (sync_incremental (authed_get_with merge) strat U ctx fuel s schema w)).
Proof.
  intros Hp. destruct strat.
  - apply (emits_sync_timestamp merge U ctx fuel s schema path Hp).
  - apply (emits_sync_end_time merge U ctx fuel s schema path Hp).
Qed.

Lemma clocks_from_le lo lo' runs :
  lo' <= lo -> clocks_from lo runs -> clocks_from lo' runs.
Proof.
  destruct runs as [|[ctx fuel] rest]; [trivial|].
  cbn [clocks_from]. intros Hle [H1 H2]. split; [lia | exact H2].
Qed.

Lemma bookmark_history_ascending merge strat U s schema path :
  bookmark s = Some path ->
  forall runs w v0,
  bookmarks w !! path = Some v0 -> clocks_from v0 runs ->
  exists vs,
    bookmark_history (authed_get_with merge) strat U s schema path runs w
    = map Some vs /\
    ascending v0 vs.
Proof.
  intros Hp. induction runs as [|[ctx fuel] rest IH]; intros w v0 H0 Hc.
  - exists []. now split.
  - cbn [clocks_from] in Hc. destruct Hc as [Hle Hrest].
    destruct (sync_writes_now merge strat U ctx fuel s schema path w Hp)
      as [_ (es & _ & Hall & Hb)].
    destruct (replay_writes_only path (now ctx) es Hall (bookmarks w) v0 H0 Hle)
      as (v1 & H1 & Hv1).
    rewrite <- Hb in H1.
    destruct (IH _ v1 H1 (clocks_from_le (now ctx) v1 rest ltac:(lia) Hrest))
      as (vs & Hh & Ha).
    exists (v1 :: vs). cbn [bookmark_history map ascending].
    rewrite H1, Hh. split; [reflexivity|]. split; [lia | exact Ha].
Qed.

(** Whatever the header step of the transport does, a sync by
    [sync_timestamp] or [sync_end_time] writes nothing to the bookmark but
    its current time [now]: the code compares nothing. So when the value
    read at the start of the window (the stored bookmark, or the
    configured start date) is not later than [now], every write of the
    sync is at least that value; and over a sequence of syncs of a
    resource whose current times do not decrease, starting from a stored
    bookmark not later than the first of them, the stored bookmark never
    decreases. *)
Theorem bookmark_writes_only_now
    (merge : container -> list (string * string) -> outcome container)
    (strat : strategy) (U : utils) (s : stream) (schema : json)
    (path : string * string) :
  bookmark s = Some path ->
  (forall ctx fuel w,
     (match bookmarks w !! path with
      | Some v => v
      | None => start_date ctx
      end) <= now ctx ->
     exists es,
       trace (snd (sync_incremental (authed_get_with merge) strat U ctx fuel s
                     schema w))
       = trace w ++ es /\
       Forall (fun ev => forall p v,
                 ev = EvSetBookmark p v ->
                 p = path /\ v = now ctx /\
                 (match bookmarks w !! path with
                  | Some v0 => v0
                  | None => start_date ctx
                  end) <= v) es) /\
  (forall runs w v0,
     bookmarks w !! path = Some v0 -> clocks_from v0 runs ->
     exists vs,
       bookmark_history (authed_get_with merge) strat U s schema path runs w
       = map Some vs /\
       ascending v0 vs).
Proof.
  intros Hp. split.
  - intros ctx fuel w Hle.
    destruct (sync_writes_now merge strat U ctx fuel s schema path w Hp)
      as [_ (es & Ht & Hall & _)].
    exists es. split; [exact Ht|].
    eapply Forall_impl; [exact Hall|]. intros ev Hev p v Heq.
    destruct (Hev p v Heq) as [-> ->]. repeat split. exact Hle.
  - apply bookmark_history_ascending, Hp.
Qed.

Lemma demo_clocks : clocks_from 500 [(demo_ctx, 5%nat); (later_ctx, 5%nat)].
Proof. cbn. lia. Qed.

Lemma bookmark_writes_only_now_witness :
  exists vs,
    bookmark_history (authed_get_with py_update) EndTime demo_utils bounces
      JNull ("bounces", "end_time") [(demo_ctx, 5%nat); (later_ctx, 5%nat)]
      past_bookmark_world
    = map Some vs /\ ascending 500 vs.
Proof.
  apply (proj2 (bookmark_writes_only_now py_update EndTime demo_utils bounces
                  JNull ("bounces", "end_time") eq_refl)).
  - reflexivity.
  - exact demo_clocks.
Defined.

(** *** The program's transport *)









(** ** Day-windowed strategy *)

Lemma searches_app es1 es2 : searches (es1 ++ es2) = searches es1 ++ searches es2.
Proof. unfold searches. apply flat_map_app. Qed.

Lemma searches_paged es :
  Forall (fun ev => is_paged_event ev = true) es -> searches es = [].
Proof.
  induction 1 as [|ev es Hev _ IH]; [reflexivity|].
  change (ev :: es) with ([ev] ++ es).
  rewrite searches_app, IH, app_nil_r.
  destruct ev as [| | |m| | |]; try reflexivity.
  destruct m; try reflexivity. discriminate.
Qed.

Lemma replay_paged es store :
  Forall (fun ev => is_paged_event ev = true) es -> replay es store = store.
Proof.
  intros H. revert store. induction H as [|ev es Hev _ IH]; intros store;
    [reflexivity|].
  unfold replay. cbn [fold_left]. fold (replay es).
  destruct ev; try apply IH. discriminate.
Qed.

Lemma day_range_shift first n :
  first :: day_range (first + day_seconds) n = day_range first (S n).
Proof.
  unfold day_range. cbn [seq map]. f_equal; [lia|].
  rewrite <- seq_shift, map_map. apply map_ext. intros k. lia.
Qed.


Lemma day_count_bounds start nw :
  start_of_day start <= nw ->
  let n := Z.to_nat (days_between start nw + 1) in
  nw < start_of_day start + day_seconds * Z.of_nat n /\
  (n = 0%nat \/ start_of_day start + day_seconds * (Z.of_nat n - 1) <= nw) /\
  Z.of_nat n = days_between start nw + 1.
Proof.
  intros Hle. cbv zeta. revert Hle.
  unfold days_between, start_of_day, day_seconds. intros Hle.
  pose proof (Z.mod_pos_bound start 86400 ltac:(lia)) as Hs.
  pose proof (Z.mod_pos_bound nw 86400 ltac:(lia)) as Hn.
  pose proof (Z.div_mod start 86400 ltac:(lia)) as Es.
  pose proof (Z.div_mod nw 86400 ltac:(lia)) as En.
  assert (nw - nw mod 86400 - (start - start mod 86400)
          = (nw / 86400 - start / 86400) * 86400) as Ediff by lia.
  rewrite Ediff, Z.div_mul by lia.
  assert (0 <= nw / 86400 - start / 86400) as Hd by lia.
  rewrite Z2Nat.id by lia. repeat split; lia.
Qed.

















(** The scenario of the specification on a sample transport: bookmark in
    day D, [now] in day D + 2: six searches, here of one request each, and
    the bookmark at [now]. *)
Lemma sync_timestamp_three_days :
  let run := sync_timestamp authed_get_merged demo_utils three_day_ctx 5
               contacts JNull three_day_world in
  fst run = Ret tt /\
  days_between 7200 (now three_day_ctx) = 2 /\
  searches (trace (snd run))
  = [("created_at", 0); ("updated_at", 0);
     ("created_at", 86400); ("updated_at", 86400);
     ("created_at", 172800); ("updated_at", 172800)] /\
  fetched_searches (trace (snd run))
  = [("created_at", 0); ("updated_at", 0);
     ("created_at", 86400); ("updated_at", 86400);
     ("created_at", 172800); ("updated_at", 172800)] /\
  calls (snd run) = 6%nat /\
  bookmarks (snd run) !! ("contacts", "timestamp") = Some (now three_day_ctx).
Proof. vm_compute. repeat split. Qed.

(** * Further properties *)

(** ** End-of-records predicate, other cases *)

(** At any status but 404 the predicate looks at [recipient_count] only:
    it is true when the body is a mapping whose [recipient_count] equals 0,
    and false when the field is absent or has another value, whatever the
    [errors] entry says. *)
Theorem end_of_records_check_other_status (r : response)
    (d : list (string * json)) :
  status_code r <> 404 -> body r = Some (JDict d) ->
  end_of_records_check r
  = Ret (py_eq_zero (match assoc "recipient_count" d with
                     | Some rc => rc
                     | None => JNull
                     end)).
Proof.
  intros Hs Hb. unfold end_of_records_check, no_more_pages, resp_json.
  replace (status_code r =? 404) with false
    by (symmetry; now apply Z.eqb_neq).
  rewrite Hb. cbn [obind py_get]. now destruct (py_eq_zero _).
Qed.

Lemma end_of_records_check_other_status_witness :
  end_of_records_check zero_count_response = Ret true.
Proof.
  exact (end_of_records_check_other_status zero_count_response
           [("recipient_count", JInt 0)] ltac:(discriminate) eq_refl).
Defined.

(** The predicate raises when the body is not a JSON object, at every
    status: [JSONDecodeError] when the body does not decode,
    [AttributeError] when it decodes to a list, a string, a number, a
    boolean or null. *)
Theorem end_of_records_check_not_an_object (r : response) :
  match body r with
  | Some j => is_dict j = false
  | None => True
  end ->
  end_of_records_check r
  = Raise (match body r with
           | Some _ => AttributeError
           | None => JSONDecodeError
           end).
Proof.
  intros H. unfold end_of_records_check, no_more_pages, resp_json.
  destruct (body r) as [j|].
  - destruct j; try discriminate;
      destruct (status_code r =? 404); reflexivity.
  - destruct (status_code r =? 404); reflexivity.
Qed.

Lemma end_of_records_check_not_an_object_witness :
  end_of_records_check (batch_response 3) = Raise AttributeError.
Proof.
  exact (end_of_records_check_not_an_object (batch_response 3) eq_refl).
Defined.

(** A 404 whose body has an empty [errors] list makes the predicate raise
    [IndexError]: the default [[{}]] only stands in for a missing key. *)
Theorem end_of_records_check_empty_errors (r : response)
    (d : list (string * json)) :
  status_code r = 404 -> body r = Some (JDict d) ->
  assoc "errors" d = Some (JList []) ->
  end_of_records_check r = Raise IndexError.
Proof.
  intros Hs Hb He. unfold end_of_records_check, no_more_pages, resp_json.
  rewrite Hs, Hb. cbn [Z.eqb Pos.eqb obind py_get]. now rewrite He.
Qed.

Lemma end_of_records_check_empty_errors_witness :
  end_of_records_check empty_errors_response = Raise IndexError.
Proof.
  exact (end_of_records_check_empty_errors empty_errors_response
           [("errors", JList [])] eq_refl eq_refl eq_refl).
Defined.

(** ** Retry with backoff, other cases *)








Lemma retry_loop_not_fuel the_authed_get ctx id url query :
  (forall i u c q w0, fst (the_authed_get i u c q w0) <> Fuel) ->
  forall fuel attempt delay last w,
  (1 <= fuel)%nat -> (S retries < fuel + attempt)%nat ->
  fst (retry_loop the_authed_get ctx fuel id url query attempt delay last w)
  <> Fuel.
Proof.
  intros Hget. induction fuel as [|fuel IH]; intros attempt delay last w H1 H2;
    [lia|].
  cbn [retry_loop]. destruct (attempt <=? retries)%nat eqn:Hle.
  - apply Nat.leb_le in Hle. unfold bind at 1.
    pose proof (Hget id url (config ctx) query w) as Hg.
    destruct (the_authed_get id url (config ctx) query w) as [[r|e|] w1];
      cbn [fst] in *; try congruence; try discriminate.
    destruct (status_code r >=? 500); [|discriminate].
    unfold log_info, sleep, emit, bind at 1 2.
    apply IH; unfold retries in *; lia.
  - destruct last as [r|]; unfold log_error, emit, raise, bind; discriminate.
Qed.

(** [retry_get] always comes back: whatever the replies, it returns a
    response or raises, provided each call of the transport does. *)
Theorem retry_get_terminates
    (the_authed_get :
       string -> string -> gmap string string -> option params -> M response)
    (ctx : context) (id url : string) (query : option params) (w : world) :
  (forall i u c q w0, fst (the_authed_get i u c q w0) <> Fuel) ->
  fst (retry_get the_authed_get ctx id url query w) <> Fuel.
Proof.
  intros Hget. unfold retry_get.
  apply retry_loop_not_fuel; [exact Hget | | ]; unfold retries; lia.
Qed.

Lemma authed_get_with_not_fuel merge :
  (forall c o, merge c o <> Fuel) ->
  forall i u c q w0, fst (authed_get_with merge i u c q w0) <> Fuel.
Proof.
  intros Hm i u c q w0. unfold authed_get_with, config_get, bind, lift, ret, raise.
  destruct (c !! "api_key") as [key|]; [|discriminate].
  pose proof (Hm (PyDict [("Authorization", "Bearer " +:+ key)]) CUSTOM_HEADERS).
  destruct (merge _ _) as [h|e|]; try discriminate; [|congruence].
  unfold http_request_timer, session_request, bind, emit, ret, lift.
  destruct (net w0 (calls w0)); discriminate.
Qed.

Lemma py_update_not_fuel c o : py_update c o <> Fuel.
Proof. destruct c; discriminate. Qed.

Lemma retry_get_terminates_witness :
  fst (retry_get authed_get_merged demo_ctx "bounces" "/v3/suppression/bounces"
         None (world_of flaky)) <> Fuel.
Proof.
  apply (retry_get_terminates authed_get_merged demo_ctx "bounces"
           "/v3/suppression/bounces" None (world_of flaky)
           (authed_get_with_not_fuel py_update py_update_not_fuel)).
Defined.

(** ** The engine over [authed_get] as written *)

Lemma authed_get_attribute_error id url cfg query w key :
  cfg !! "api_key" = Some key ->
  authed_get id url cfg query w = (Raise AttributeError, w).
Proof.
  intros Hk. unfold authed_get, authed_get_with, config_get. now rewrite Hk.
Qed.

Lemma retry_get_attribute_error ctx key id url query w :
  config ctx !! "api_key" = Some key ->
  retry_get authed_get ctx id url query w = (Raise AttributeError, w).
Proof.
  intros Hk. unfold retry_get. cbn [retry_loop].
  change (1 <=? retries)%nat with true. cbv iota.
  now rewrite (bind_Raise _ _ _ _ _
                 (authed_get_attribute_error id url _ query w key Hk)).
Qed.

(** With [authed_get] as the source has it, nothing is ever fetched:
    [retry_get] and each of the three cursor strategies raise
    [AttributeError] on the first turn, before any request, sleep or log,
    and before the consumer sees anything. *)
Theorem cursor_strategies_as_written_fail (U : utils) (ctx : context)
    (key : string) (s : stream) (url : string) (query add_params : option params)
    (page start end_ offset : Z) (attempts fuel : nat) (k : json -> M unit)
    (w : world) :
  config ctx !! "api_key" = Some key ->
  retry_get authed_get ctx (tap_stream_id s) url query w
    = (Raise AttributeError, w) /\
  get_using_paged_loop authed_get ctx (S fuel) s url add_params page attempts
    k w = (Raise AttributeError, w) /\
  get_using_offset_loop authed_get U ctx (S fuel) s url start end_ offset k w
    = (Raise AttributeError, w) /\
  get_members_limits_loop authed_get ctx (S fuel) s url offset k w
    = (Raise AttributeError, w).
Proof.
  intros Hk. split; [now apply (retry_get_attribute_error ctx key)|].
  split; [|split].
  - cbn [get_using_paged_loop].
    now rewrite (bind_Raise _ _ _ _ _
                   (retry_get_attribute_error ctx key _ url _ w Hk)).
  - cbn [get_using_offset_loop].
    now rewrite (bind_Raise _ _ _ _ _
                   (retry_get_attribute_error ctx key _ url _ w Hk)).
  - cbn [get_members_limits_loop].
    now rewrite (bind_Raise _ _ _ _ _
                   (retry_get_attribute_error ctx key _ url _ w Hk)).
Qed.

Lemma cursor_strategies_as_written_fail_witness :
  get_using_offset_loop authed_get demo_utils demo_ctx 1 bounces
    "/v3/suppression/bounces" 0 1000 0 (fun _ => ret tt) (world_of two_batches)
  = (Raise AttributeError, world_of two_batches).
Proof.
  exact (proj1 (proj2 (proj2
           (cursor_strategies_as_written_fail demo_utils demo_ctx "SG.key"
              bounces "/v3/suppression/bounces" None None 1 0 1000 0 0 0
              (fun _ => ret tt) (world_of two_batches) demo_key)))).
Defined.

(** ** Page/page-size strategy, other cases *)









(** ** Offset window, from first to last batch *)











(** ** Failures in the start/end timestamp strategy *)




(** The run of the witness, on the sample transport: the second fetch
    meets 20 server errors and the run ends in [ValueError], the bookmark
    already at [end]. *)
Lemma sync_end_time_full_then_down :
  fst (sync_end_time authed_get_merged demo_utils demo_ctx 2 bounces JNull
         (world_of full_then_down))
  = Raise (ValueError
             "Failed 20 times trying to hit endpoint /v3/suppression/bounces").
Proof. vm_compute. reflexivity. Qed.

Lemma replay_transport es store :
  Forall (fun ev => is_transport ev = true) es -> replay es store = store.
Proof.
  intros H. revert store. induction H as [|ev es Hev _ IH]; intros store;
    [reflexivity|].
  unfold replay. cbn [fold_left]. fold (replay es).
  destruct ev; try apply IH. discriminate.
Qed.

(** When the first fetch of the window fails, [sync_end_time] fails with
    the same exception, having written no record and left every bookmark
    as it was: after the "Starting to extract" log the trace holds events
    of the transport only. This is so whatever the header step of the
    transport does; with the [authed_get] of the source the fetch fails
    in every run. *)
Theorem sync_end_time_first_fetch_fails
    (merge : container -> list (string * string) -> outcome container)
    (U : utils) (ctx : context)
    (s : stream) (schema : json) (path : string * string) (w w1 : world)
    (fuel : nat) (e : exn) :
  bookmark s = Some path ->
  retry_get (authed_get_with merge) ctx (tap_stream_id s) (endpoint s)
    (offset_query 0 (window_start ctx path w) (now ctx))
    (logged w [EvInfo (MsgStarting (tap_stream_id s) (window_start ctx path w)
                         (now ctx))])
  = (Raise e, w1) ->
  sync_end_time (authed_get_with merge) U ctx (S fuel) s schema w
  = (Raise e, w1) /\
  bookmarks w1 = bookmarks w /\
  exists es,
    trace w1 = trace w
               ++ EvInfo (MsgStarting (tap_stream_id s) (window_start ctx path w)
                            (now ctx)) :: es /\
    Forall (fun ev => is_transport ev = true) es.
Proof.
  intros Hp Hget. split.
  - unfold sync_end_time, stream_bookmark. rewrite Hp.
    unfold bind at 1, ret at 1. unfold update_start_date_bookmark, bind at 1.
    unfold log_info, emit, bind at 1.
    unfold get_using_offset. cbn [resolve_endpoint].
    rewrite (lift_bind _ (endpoint s)) by reflexivity.
    cbn [get_using_offset_loop].
    now rewrite (bind_Raise _ _ _ _ _ Hget).
  - apply retry_get_grows in Hget as [_ (es & Ht & Hall & Hb)].
    cbn [logged trace bookmarks] in Ht, Hb. split.
    + now rewrite Hb, replay_transport.
    + exists es. split; [|exact Hall]. rewrite Ht. now rewrite <- app_assoc.
Qed.

Lemma sync_end_time_first_fetch_fails_witness :
  sync_end_time authed_get demo_utils demo_ctx 1 bounces JNull
    (world_of (fun _ => Answer server_error_response))
  = (Raise AttributeError,
     logged (world_of (fun _ => Answer server_error_response))
       [EvInfo (MsgStarting "bounces" 0 1000)]).
Proof.
  apply (sync_end_time_first_fetch_fails py_extend demo_utils demo_ctx bounces
           JNull ("bounces", "end_time")
           (world_of (fun _ => Answer server_error_response)) _ 0 _ eq_refl).
  vm_compute. reflexivity.
Defined.

(** ** Day-windowed strategy, other cases *)

Lemma days_loop_total ctx n :
  forall search_term acc fuel,
  (n < fuel)%nat ->
  now ctx < search_term + day_seconds * Z.of_nat n ->
  (n = 0%nat \/ search_term + day_seconds * (Z.of_nat n - 1) <= now ctx) ->
  days_loop ctx fuel search_term acc = Ret (acc ++ day_range search_term n).
Proof.
  induction n as [|n IH]; intros st acc fuel Hf Hup Hlow;
    (destruct fuel as [|fuel]; [lia|]); cbn [days_loop].
  - replace (st <=? now ctx) with false
      by (symmetry; apply Z.leb_gt; unfold day_seconds in *; lia).
    unfold day_range. cbn. now rewrite app_nil_r.
  - destruct Hlow as [Hz|Hlow]; [discriminate|].
    replace (st <=? now ctx) with true
      by (symmetry; apply Z.leb_le; unfold day_seconds in *; lia).
    rewrite (IH (st + day_seconds) (acc ++ [st]) fuel);
      [| lia | unfold day_seconds in *; lia |].
    + rewrite <- app_assoc. cbn [app]. now rewrite day_range_shift.
    + destruct n as [|n]; [now left | right]. unfold day_seconds in *. lia.
Qed.

Lemma start_of_day_fixed t k :
  start_of_day (start_of_day t + day_seconds * k) = start_of_day t + day_seconds * k.
Proof.
  unfold start_of_day, day_seconds.
  pose proof (Z.div_mod t 86400 ltac:(lia)) as Et.
  replace (t - t mod 86400 + 86400 * k) with ((t / 86400 + k) * 86400) by lia.
  rewrite Z.mod_mul by lia. lia.
Qed.

(** With fuel for its turns, [discrete_days_since_start] returns: the days
    are the start of the day of [start], then one every 86400 seconds, up
    to the last that is not after [now]: each is the start of a day and
    none is later than [now]; there is none when the day of [start] begins
    after [now]. *)
Theorem discrete_days_since_start_days (ctx : context) (start : Z) (fuel : nat) :
  let n := if start_of_day start <=? now ctx
           then Z.to_nat (days_between start (now ctx) + 1)
           else 0%nat in
  (n < fuel)%nat ->
  discrete_days_since_start ctx fuel start
  = Ret (day_range (start_of_day start) n) /\
  Forall (fun day => start_of_day day = day /\ day <= now ctx)
    (day_range (start_of_day start) n).
Proof.
  intros n Hf. destruct (start_of_day start <=? now ctx) eqn:Hle.
  - apply Z.leb_le in Hle.
    destruct (day_count_bounds start (now ctx) Hle) as (Hup & Hlow & Hn).
    fold n in Hup, Hlow, Hn. split.
    + unfold discrete_days_since_start.
      now rewrite (days_loop_total ctx n (start_of_day start) [] fuel Hf Hup Hlow).
    + unfold day_range. apply Forall_forall. intros day Hin.
      apply list_elem_of_In in Hin. apply in_map_iff in Hin as (k & <- & Hk).
      apply in_seq in Hk. split; [apply start_of_day_fixed|].
      destruct Hlow as [Hz|Hlow]; [lia|]. unfold day_seconds in *. lia.
  - apply Z.leb_gt in Hle. subst n. split.
    + unfold discrete_days_since_start.
      rewrite (days_loop_total ctx 0 (start_of_day start) [] fuel Hf);
        [reflexivity | unfold day_seconds; lia | now left].
    + constructor.
Qed.

Lemma discrete_days_since_start_days_witness :
  discrete_days_since_start three_day_ctx 4 7200 = Ret [0; 86400; 172800].
Proof.
  exact (proj1 (discrete_days_since_start_days three_day_ctx 7200 4
                  ltac:(vm_compute; lia))).
Defined.

(** A bookmark (or start date) whose day begins after [now] makes
    [sync_timestamp] a no-op, over any transport: no search, no request,
    and the bookmark is not written. *)
Theorem sync_timestamp_future_bookmark
    (the_authed_get :
       string -> string -> gmap string string -> option params -> M response)
    (U : utils) (ctx : context) (fuel : nat) (s : stream) (schema : json)
    (path : string * string) (w : world) :
  bookmark s = Some path ->
  now ctx < start_of_day (window_start ctx path w) ->
  sync_timestamp the_authed_get U ctx (S fuel) s schema w = (Ret tt, w).
Proof.
  intros Hp Hlt. unfold sync_timestamp, stream_bookmark. rewrite Hp.
  unfold bind at 1, ret at 1. unfold update_start_date_bookmark, bind at 1.
  fold (window_start ctx path w).
  unfold discrete_days_since_start. cbn [days_loop].
  replace (start_of_day (window_start ctx path w) <=? now ctx) with false
    by (symmetry; now apply Z.leb_gt).
  reflexivity.
Qed.

Lemma sync_timestamp_future_bookmark_witness :
  sync_timestamp authed_get_merged demo_utils demo_ctx 1 contacts JNull
    (mkWorld two_batches 0 [] {[("contacts", "timestamp") := 200000]})
  = (Ret tt, mkWorld two_batches 0 [] {[("contacts", "timestamp") := 200000]}).
Proof.
  apply (sync_timestamp_future_bookmark authed_get_merged demo_utils demo_ctx 0
           contacts JNull ("contacts", "timestamp")
           (mkWorld two_batches 0 [] {[("contacts", "timestamp") := 200000]})
           eq_refl).
  vm_compute. reflexivity.
Defined.

(** When the first search of [sync_timestamp], on ['created_at'] for the
    first day, fails, the strategy fails with the same exception: the
    ['updated_at'] search of that day and the later days are not started,
    and no bookmark is written. This is so whatever the header step of
    the transport does; with the [authed_get] of the source the first
    search fails in every run that has a day to search. *)
Theorem sync_timestamp_first_search_fails
    (merge : container -> list (string * string) -> outcome container)
    (U : utils) (ctx : context)
    (fuel : nat) (s : stream) (schema : json) (path : string * string)
    (w w1 : world) (e : exn) :
  bookmark s = Some path ->
  start_of_day (window_start ctx path w) <= now ctx ->
  (Z.to_nat (days_between (window_start ctx path w) (now ctx) + 1) < fuel)%nat ->
  write_paged_records (authed_get_with merge) U ctx fuel s schema
    (Some [("created_at", start_of_day (window_start ctx path w))]) None None
    (logged w [EvInfo (MsgLooking "created_at"
                         (start_of_day (window_start ctx path w)))])
  = (Raise e, w1) ->
  sync_timestamp (authed_get_with merge) U ctx fuel s schema w
  = (Raise e, w1) /\
  bookmarks w1 = bookmarks w /\
  exists es,
    trace w1 = trace w ++ es /\
    searches es = [("created_at", start_of_day (window_start ctx path w))].
Proof.
  intros Hp Hle Hf Hsearch.
  destruct (day_count_bounds (window_start ctx path w) (now ctx) Hle)
    as (Hup & Hlow & Hn).
  set (n := Z.to_nat (days_between (window_start ctx path w) (now ctx) + 1)) in *.
  set (day0 := start_of_day (window_start ctx path w)) in *.
  destruct n as [|n'] eqn:En; [unfold day_seconds in Hup; lia|].
  split; [|split].
  - unfold sync_timestamp, stream_bookmark. rewrite Hp.
    unfold bind at 1, ret at 1. unfold update_start_date_bookmark, bind at 1.
    fold (window_start ctx path w). unfold discrete_days_since_start.
    fold day0.
    rewrite (lift_bind _ (day_range day0 (S n')))
      by (rewrite (days_loop_total ctx (S n') day0 [] fuel Hf Hup Hlow);
          reflexivity).
    rewrite <- day_range_shift. cbn [for_each].
    unfold log_info in *. unfold logged in Hsearch.
    unfold bind at 1. unfold bind at 1. unfold bind at 1.
    unfold emit at 1.
    unfold bind at 1. cbv beta.
    now rewrite Hsearch.
  - pose proof (emits_write_paged_records merge U ctx fuel s schema
                  (Some [("created_at", day0)]) None None
                  (logged w [EvInfo (MsgLooking "created_at" day0)])) as G.
    rewrite Hsearch in G.
    destruct G as [_ (es & _ & Hall & Hb)]. cbn [snd logged bookmarks] in Hb.
    now rewrite Hb, replay_paged.
  - pose proof (emits_write_paged_records merge U ctx fuel s schema
                  (Some [("created_at", day0)]) None None
                  (logged w [EvInfo (MsgLooking "created_at" day0)])) as G.
    rewrite Hsearch in G.
    destruct G as [_ (es & Ht & Hall & _)]. cbn [snd logged trace] in Ht.
    exists (EvInfo (MsgLooking "created_at" day0) :: es). split.
    + rewrite Ht. now rewrite <- app_assoc.
    + change (EvInfo (MsgLooking "created_at" day0) :: es)
        with ([EvInfo (MsgLooking "created_at" day0)] ++ es).
      now rewrite searches_app, (searches_paged es Hall).
Qed.

Lemma sync_timestamp_first_search_fails_witness :
  sync_timestamp authed_get demo_utils three_day_ctx 5 contacts JNull
    three_day_world
  = (Raise AttributeError,
     logged three_day_world [EvInfo (MsgLooking "created_at" 0)]).
Proof.
  apply (sync_timestamp_first_search_fails py_extend demo_utils three_day_ctx 5
           contacts JNull ("contacts", "timestamp") three_day_world _ _ eq_refl).
  - vm_compute. discriminate.
  - vm_compute. lia.
  - vm_compute. reflexivity.
Defined.

(** ** Member batches *)







Lemma replay_no_set_bookmark es store :
  Forall (fun ev => is_set_bookmark ev = false) es -> replay es store = store.
Proof.
  intros H. revert store. induction H as [|ev es Hev _ IH]; intros store;
    [reflexivity|].
  unfold replay. cbn [fold_left]. fold (replay es).
  destruct ev; try apply IH. discriminate.
Qed.

Lemma emits_get_members_limits_loop (P : event -> Prop) merge ctx fuel s url
    offset body :
  (forall ev, is_transport ev = true -> P ev) ->
  (forall st, P (EvError (MsgStatusError st))) ->
  (forall c, P (EvError (MsgInvalidContent c))) ->
  (forall r, emits P (body r)) ->
  emits P (get_members_limits_loop (authed_get_with merge) ctx fuel s url
             offset body).
Proof.
  intros HT H1 H2 Hb. revert offset.
  induction fuel as [|fuel IH]; intros offset; simpl.
  - apply emits_out_of_fuel.
  - apply emits_bind.
    { apply emits_retry_get; [exact HT|].
      intros id u q. now apply emits_authed_get_with. }
    intros r.
    apply emits_bind.
    { apply emits_try_except; [apply emits_lift|]. intros _.
      apply emits_bind; [apply emits_emit; auto|]. intros _.
      apply emits_bind; [apply emits_emit; auto|]. intros _.
      apply emits_raise. }
    intros j.
    apply emits_bind; [apply Hb|]. intros _.
    apply emits_bind; [apply emits_lift|]. intros j'.
    apply emits_bind; [apply emits_lift|]. intros n.
    destruct (negb (n =? 0)%nat); [apply IH | apply emits_ret].
Qed.

(** [sync_member_count_limits] keeps no state between runs: however the
    run ends (return, exception, any transport), it writes no bookmark,
    so the store is the one it started with and every run starts again at
    offset 0. *)
Theorem sync_member_count_limits_writes_no_bookmark
    (merge : container -> list (string * string) -> outcome container)
    (U : utils) (ctx : context) (fuel : nat) (s : stream) (schema : json)
    (w : world) :
  let w' := snd (sync_member_count_limits (authed_get_with merge) U ctx fuel s
                   schema w) in
  bookmarks w' = bookmarks w /\
  exists es, trace w' = trace w ++ es /\
             Forall (fun ev => is_set_bookmark ev = false) es.
Proof.
  assert (forall ev, is_transport ev = true -> is_set_bookmark ev = false) as HT.
  { intros [] Ht; try reflexivity. discriminate. }
  assert (emits (fun ev => is_set_bookmark ev = false)
            (sync_member_count_limits (authed_get_with merge) U ctx fuel s schema))
    as G.
  { unfold sync_member_count_limits, get_members_limits, log_info.
    apply emits_bind; [now apply emits_emit|]. intros _.
    apply emits_bind; [apply emits_lift|]. intros url.
    apply emits_get_members_limits_loop; try easy.
    intros r. now apply emits_write_records. }
  destruct (G w) as [_ (es & Ht & Hall & Hb)]. cbv zeta. split.
  - now rewrite Hb, replay_no_set_bookmark.
  - now exists es.
Qed.


